(** * spacestills: the NASA TV still frame viewer (src/spacestills/gui.py)

    A shallow embedding of gui.py and the properties of its frame, fetch,
    timer, interval-validation and event-loop code.

    Conventions of the embedding:
    - Python [int] is [Z]; a 2-tuple of ints is [Z * Z].
    - A Python exception is a constructor of [exn]; a call that may raise
      returns [result].
    - PIL, requests, PySimpleGUI and the file system are outside the
      repository.  PIL is modelled by a symbolic picture (mode, size, pixel
      term) with a container-format tag; a byte string is either the
      encoding of a picture in some container format or undecodable raw
      data.  The network, the clock and the popup dialogue are inputs of the
      functions that consult them; the paths that cannot be written are a
      field of the world.
    - PIL's [save] raises for an image whose mode PNG cannot hold (a CMYK
      JPEG) or whose data is incomplete; no such image is in the model,
      where [Image_save] always succeeds.  What is stated of the
      constructor, of [_topng], of [refresh] and of the start of [main] is
      therefore stated of the calls that return, and nowhere is it stated
      that such a call returns for an image fetched from the network.
    - [StillFrame] instances live in a store indexed by reference, because
      [resize] and [_topng] assign to [self.image] and return [self].
      [PIL.Image] objects are never updated in place by gui.py, so they are
      values. *)

From Stdlib Require Import ZArith Ascii String List Bool Lia.
From stdpp Require Import base option gmap strings.

Local Open Scope string_scope.
Local Open Scope Z_scope.

(** ** Exceptions *)

Inductive exn : Set :=
  | ValueError              (* int('abc'), int('') *)
  | TypeError               (* int(None) *)
  | ConnectTimeout          (* requests.exceptions.ConnectTimeout *)
  | ReadTimeout             (* requests.exceptions.ReadTimeout *)
  | ConnectionError         (* requests.exceptions.ConnectionError *)
  | UnidentifiedImageError  (* PIL.UnidentifiedImageError *)
  | OSError
  | ReferenceError.         (* a reference outside the store; unreachable *)

Inductive result (A : Type) : Type :=
  | Ok (a : A)
  | Raise (e : exn).
Arguments Ok {A} a.
Arguments Raise {A} e.

(** [isinstance(e, Timeout)]: ConnectTimeout and ReadTimeout are the
    subclasses of requests.exceptions.Timeout. *)
Definition is_Timeout (e : exn) : bool :=
  match e with
  | ConnectTimeout | ReadTimeout => true
  | _ => false
  end.

(** [isinstance(e, OSError)]. *)
Definition is_OSError (e : exn) : bool :=
  match e with
  | OSError => true
  | _ => false
  end.

(** ** Module-level constants (gui.py lines 19-29) *)

Definition FEED_URL : string :=
  "https://science.ksc.nasa.gov/shuttle/countdown/video/chan2large.jpg".

Definition WIDTH : Z := 704.
Definition HEIGHT : Z := 480.
Definition HEIGHT_16_9 : Z := 396.

Definition MIN_DELTA : Z := 45.
Definition DELTA : Z := MIN_DELTA.
Definition MAX_DELTA : Z := 300.

(** ** Python's [int(value)] *)

Module Py.

(** The values that reach [validate_delta]: the text of an input field,
    an int (as the docstring announces), or None. *)
Inductive value : Type :=
  | Str (s : string)
  | Int (n : Z)
  | None_.

(** ASCII white space as [int] strips it from a str: \t \n \v \f \r and
    the blank. *)
Definition is_space (c : ascii) : bool :=
  let n := N_of_ascii c in
  ((9 <=? n) && (n <=? 13) || (n =? 32))%N.

Definition digit_of (c : ascii) : option Z :=
  let n := N_of_ascii c in
  if ((48 <=? n) && (n <=? 57))%N then Some (Z.of_N n - 48) else None.

Fixpoint lstrip (l : list ascii) : list ascii :=
  match l with
  | c :: l' => if is_space c then lstrip l' else l
  | [] => []
  end.

Definition strip (l : list ascii) : list ascii :=
  rev (lstrip (rev (lstrip l))).

(** Decimal digits, where a single underscore may stand between two
    digits.  [after_digit] tells whether the previous character was a
    digit: only then may an underscore follow or the literal end. *)
Fixpoint digits (acc : Z) (after_digit : bool) (l : list ascii) : option Z :=
  match l with
  | [] => if after_digit then Some acc else None
  | c :: l' =>
      match digit_of c with
      | Some d => digits (10 * acc + d) true l'
      | None =>
          if (Ascii.eqb c "_" && after_digit)%bool
          then digits acc false l'
          else None
      end
  end.

Definition int_of_str (s : string) : option Z :=
  match strip (list_ascii_of_string s) with
  | "+"%char :: l => digits 0 false l
  | "-"%char :: l => Z.opp <$> digits 0 false l
  | l => digits 0 false l
  end.

(** [int(value)] in base ten.  Characters outside ASCII (other scripts'
    digits and spaces) and the limit on the number of digits are not
    modelled: a string holding such a character does not parse. *)
Definition int (v : value) : result Z :=
  match v with
  | Str s => match int_of_str s with
             | Some n => Ok n
             | None => Raise ValueError
             end
  | Int n => Ok n
  | None_ => Raise TypeError
  end.

(** [str(n)] is needed at the default interval only. *)
Definition str_DELTA : string := "45".

End Py.

(** ** validate_delta (gui.py lines 266-289) *)

Definition validate_delta (value : Py.value) : Z * bool :=
  (* isinteger = False
     try: isinteger = type(int(value)) is int
     except Exception: delta = DELTA *)
  let isinteger := match Py.int value with Ok _ => true | Raise _ => false end in
  (* delta = int(value) if isinteger else delta *)
  let delta := match Py.int value with Ok n => n | Raise _ => DELTA end in
  (* isvalid = MIN_DELTA <= delta <= MAX_DELTA *)
  let isvalid := (MIN_DELTA <=? delta) && (delta <=? MAX_DELTA) in
  (* delta = delta if isvalid else DELTA *)
  let delta := if isvalid then delta else DELTA in
  (delta, isinteger && isvalid).

(** ** Timer (gui.py lines 233-263)

    A [datetime] is a count of microseconds; [rightnow] is the value that
    [datetime.now()] returns inside the call. *)

Definition timedelta_seconds (seconds : Z) : Z := seconds * 1000000.

Definition next_timeout (rightnow : Z) (delta : Z) : Z :=
  rightnow + timedelta_seconds delta.

Definition timeout_due (rightnow : Z) (next_timeout : Z) : bool :=
  rightnow >=? next_timeout.

(** ** PIL images

    A picture is a mode, a size and a symbolic pixel term; an [Image] adds
    the [format] attribute, which PIL sets when it opens a file and leaves
    [None] on images it creates or resizes. *)

Inductive format : Set := PNG | JPEG | GIF | BMP.

#[global] Instance format_eq_dec : EqDecision format.
Proof. solve_decision. Defined.

Inductive pixels : Type :=
  | Solid (color : string)                       (* Image.new(mode, size, color) *)
  | Bitmap (data : list Z)                       (* decoded from a file *)
  | Resampled (src : pixels) (src_size : Z * Z). (* Image.resize *)

Record picture : Type := mkPicture {
  pic_mode : string;
  pic_size : Z * Z;
  pic_pixels : pixels
}.

Record Image : Type := mkImage {
  Image_format : option format;
  Image_picture : picture
}.

Definition Image_size (im : Image) : Z * Z := pic_size (Image_picture im).

(** A byte string: the encoding of a picture in a container format, or
    data that no decoder accepts. *)
Inductive pybytes : Type :=
  | Encoded (f : format) (p : picture)
  | Raw (data : list Z).

(** [Image.new(mode, size, color)]. *)
Definition Image_new (mode : string) (size : Z * Z) (color : string) : Image :=
  mkImage None (mkPicture mode size (Solid color)).

(** [Image.open(BytesIO(data))], with the pixel data read at once; PIL
    reads it on first use, so that incomplete data shows only then. *)
Definition Image_open (data : pybytes) : result Image :=
  match data with
  | Encoded f p => Ok (mkImage (Some f) p)
  | Raw _ => Raise UnidentifiedImageError
  end.

(** [image.save(file, fmt); file.seek(0); file.read()], for an image that
    the format can hold and whose data is complete. *)
Definition Image_save (im : Image) (f : format) : pybytes :=
  Encoded f (Image_picture im).

(** [image.resize(new_size)]: a new image of the requested size. *)
Definition Image_resize (im : Image) (new_size : Z * Z) : Image :=
  let p := Image_picture im in
  mkImage None (mkPicture (pic_mode p) new_size
                          (Resampled (pic_pixels p) (pic_size p))).

(** Equality of 2-tuples of ints, [size == new_size]. *)
Definition size_eqb (a b : Z * Z) : bool :=
  (fst a =? fst b) && (snd a =? snd b).


Definition encoded_size (data : pybytes) : option (Z * Z) :=
  match data with
  | Encoded _ p => Some (pic_size p)
  | Raw _ => None
  end.

(** ** requests *)

Record Response : Type := mkResponse {
  status_code : Z;
  content : pybytes
}.

(** [requests.get(url, timeout=(0.5, 0.5))] as the environment answers it. *)
Definition network : Type := string -> result Response.

(** ** The store, the window and the file system *)

Abbreviation ref := positive (only parsing).

Record StillFrame : Type := mkStillFrame {
  image : Image;
  original : Image
}.

Record world : Type := mkWorld {
  frames : gmap positive StillFrame;   (* the StillFrame instances *)
  window_IMAGE : option pybytes;       (* window['-IMAGE-'] data *)
  window_DELTA : option string;        (* last window['-DELTA-'].update *)
  popups : list string;                (* sg.popup_ok calls, latest first *)
  files : gmap string pybytes;         (* file contents *)
  unwritable : string -> bool          (* paths where open(.., 'wb') fails *)
}.

Definition set_frames (f : gmap positive StillFrame -> gmap positive StillFrame)
    (w : world) : world :=
  mkWorld (f (frames w)) (window_IMAGE w) (window_DELTA w) (popups w)
          (files w) (unwritable w).

Definition set_files (f : gmap string pybytes -> gmap string pybytes)
    (w : world) : world :=
  mkWorld (frames w) (window_IMAGE w) (window_DELTA w) (popups w)
          (f (files w)) (unwritable w).

(** Computations that read and update the world and may raise; the world
    at the point of the raise is kept, for [except] clauses. *)
Definition M (A : Type) : Type := world -> result A * world.

Definition ret {A} (a : A) : M A := fun w => (Ok a, w).

Definition raise {A} (e : exn) : M A := fun w => (Raise e, w).

Definition bind {A B} (c : M A) (k : A -> M B) : M B :=
  fun w => match c w with
           | (Ok a, w') => k a w'
           | (Raise e, w') => (Raise e, w')
           end.

Definition lift {A} (r : result A) : M A := fun w => (r, w).

(** [try: c  except E: h], where [handles] decides [isinstance(e, E)]. *)
Definition try_except {A} (c : M A) (handles : exn -> bool) (h : M A) : M A :=
  fun w => match c w with
           | (Raise e, w') => if handles e then h w' else (Raise e, w')
           | r => r
           end.

Notation "'let*' x ':=' c 'in' k" := (bind c (fun x => k))
  (at level 10, x name, c at level 100, k at level 200).
Notation "'run' c 'then' k" := (bind c (fun _ => k))
  (at level 10, c at level 100, k at level 200).

Definition alloc (fr : StillFrame) : M ref :=
  fun w => let self := fresh (dom (frames w)) in
           (Ok self, set_frames (insert self fr) w).

Definition get_image (self : ref) : M Image :=
  fun w => match frames w !! self with
           | Some fr => (Ok (image fr), w)
           | None => (Raise ReferenceError, w)
           end.

Definition get_original (self : ref) : M Image :=
  fun w => match frames w !! self with
           | Some fr => (Ok (original fr), w)
           | None => (Raise ReferenceError, w)
           end.

(** [self.image = im]. *)
Definition set_image (self : ref) (im : Image) : M unit :=
  fun w => match frames w !! self with
           | Some fr =>
               (Ok tt, set_frames (insert self (mkStillFrame im (original fr))) w)
           | None => (Raise ReferenceError, w)
           end.

(** [self.original = im]. *)
Definition set_original (self : ref) (im : Image) : M unit :=
  fun w => match frames w !! self with
           | Some fr =>
               (Ok tt, set_frames (insert self (mkStillFrame (image fr) im)) w)
           | None => (Raise ReferenceError, w)
           end.

(** [window['-IMAGE-'].update(data=data)]. *)
Definition window_IMAGE_update (data : pybytes) : M unit :=
  fun w => (Ok tt, mkWorld (frames w) (Some data) (window_DELTA w) (popups w)
                           (files w) (unwritable w)).

(** [window['-DELTA-'].update(text)]. *)
Definition window_DELTA_update (text : string) : M unit :=
  fun w => (Ok tt, mkWorld (frames w) (window_IMAGE w) (Some text) (popups w)
                           (files w) (unwritable w)).

(** [sg.popup_ok('Error while saving file:', filename, title='Error')]. *)
Definition popup_ok (filename : string) : M unit :=
  fun w => (Ok tt, mkWorld (frames w) (window_IMAGE w) (window_DELTA w)
                           (filename :: popups w) (files w) (unwritable w)).

(** [open(filename, 'wb')]: the file is created or truncated. *)
Definition open_wb (filename : string) : M unit :=
  fun w => if unwritable w filename then (Raise OSError, w)
           else (Ok tt, set_files (insert filename (Raw [])) w).

(** [file.write(data)] on a file just opened. *)
Definition file_write (filename : string) (data : pybytes) : M unit :=
  fun w => (Ok tt, set_files (insert filename data) w).

(** ** class StillFrame (gui.py lines 32-121) *)

(** [_topng]: convert the image of the frame to PNG, unless its format
    attribute already says PNG. *)
Definition _topng (self : ref) : M ref :=
  let* image := get_image self in
  run (if negb (bool_decide (Image_format image = Some PNG)) then
         let png_file := Image_save image PNG in
         let* png_image := lift (Image_open png_file) in
         set_image self png_image
       else ret tt)
  then ret self.

(** [StillFrame(image)].  The instance is allocated with both attributes
    bound to the argument; [original] is assigned again before the
    constructor returns, as in [__init__]. *)
Definition StillFrame__init__ (image : Image) : M ref :=
  let* self := alloc (mkStillFrame image image) in
  let* _ := _topng self in
  let* png := get_image self in
  run set_original self png
  then ret self.

Definition bytes (self : ref) : M pybytes :=
  let* image := get_image self in
  ret (Image_save image PNG).

Definition new_size (self : ref) : M (Z * Z) :=
  let* image := get_image self in
  let* original := get_original self in
  let size := Image_size image in
  let original_size := Image_size original in
  ret (if size_eqb size original_size
       then (WIDTH, HEIGHT_16_9) else (WIDTH, HEIGHT)).

Definition resize (self : ref) (new_size : Z * Z) : M ref :=
  let* image := get_image self in
  run (if negb (size_eqb (Image_size image) new_size)
       then set_image self (Image_resize image new_size)
       else ret tt)
  then ret self.

(** ** Fetching (gui.py lines 124-162) *)

Definition make_blank_image (size : Z * Z) : Image :=
  Image_new "RGB" size "blue".

(** The default argument [size=(WIDTH, HEIGHT)]. *)
Definition make_blank_image_default : Image := make_blank_image (WIDTH, HEIGHT).

(** [try ... except Timeout] on results. *)
Definition except_Timeout {A} (body : result A) (handler : result A) : result A :=
  match body with
  | Raise e => if is_Timeout e then handler else Raise e
  | Ok a => Ok a
  end.

Definition download_image (get : network) (url : string) : result Image :=
  except_Timeout
    (match get url with
     | Ok response =>
         if status_code response =? 200
         then Image_open (content response)
         else Ok make_blank_image_default
     | Raise e => Raise e
     end)
    (Ok make_blank_image_default).

(** ** Display and saving (gui.py lines 165-230) *)

Definition change_aspect_ratio (still : ref) (new_size : Z * Z) : M ref :=
  let* resized_still := resize still new_size in
  let* data := bytes resized_still in
  run window_IMAGE_update data
  then ret resized_still.

Definition refresh (get : network) (resize : bool) (feed : string) : M ref :=
  let* downloaded := lift (download_image get feed) in
  let* still := StillFrame__init__ downloaded in
  if resize then
    change_aspect_ratio still (WIDTH, HEIGHT_16_9)
  else
    let* data := bytes still in
    run window_IMAGE_update data
    then ret still.

Definition save (still : ref) (path : string) : M bool :=
  try_except
    (run open_wb path then
     let* data := bytes still in
     run file_write path data
     then ret true)
    is_OSError
    (ret false).

(** ** The event loop (gui.py lines 303-340) *)

Inductive event : Set :=
  | WIN_CLOSED
  | Exit
  | RELOAD          (* '-RELOAD-' *)
  | RESIZE          (* '-RESIZE-' *)
  | SAVE            (* '-SAVE-' *)
  | UPDATE_DELTA    (* '-UPDATE_DELTA-' *)
  | TIMEOUT.        (* sg.TIMEOUT_KEY: no event within 100 ms *)

#[global] Instance event_eq_dec : EqDecision event.
Proof. solve_decision. Defined.

(** The entries of [values] that the loop reads. *)
Record values : Type := mkValues {
  v_AUTORELOAD : bool;      (* values['-AUTORELOAD-'] *)
  v_RESIZE : bool;          (* values['-RESIZE-'] *)
  v_DELTA : string          (* values['-DELTA-'] *)
}.

(** What the environment supplies during one iteration. *)
Record tick : Type := mkTick {
  t_event : event;
  t_values : values;
  t_now_due : Z;                 (* datetime.now() inside timeout_due *)
  t_now_next : Z;                (* datetime.now() inside next_timeout *)
  t_get : network;               (* the network during refresh *)
  t_filename : option string     (* sg.popup_get_file result *)
}.

(** The local variables of [main]. *)
Record locals : Type := mkLocals {
  current_still : ref;
  delta : Z;
  next_reload_time : Z
}.

Inductive control : Type :=
  | Continue (l : locals)
  | Break.

(** One iteration of [while True]. *)
Definition main_step (t : tick) (l : locals) : M control :=
  let event := t_event t in
  let values := t_values t in
  if bool_decide (event = WIN_CLOSED) || bool_decide (event = Exit) then
    ret Break
  else if bool_decide (event = RELOAD)
          || (v_AUTORELOAD values
              && timeout_due (t_now_due t) (next_reload_time l)) then
    let* still := refresh (t_get t) (v_RESIZE values) FEED_URL in
    ret (Continue
           (mkLocals still (delta l)
              (if v_AUTORELOAD values
               then next_timeout (t_now_next t) (delta l)
               else next_reload_time l)))
  else if bool_decide (event = RESIZE) then
    let* size := new_size (current_still l) in
    let* still := change_aspect_ratio (current_still l) size in
    ret (Continue (mkLocals still (delta l) (next_reload_time l)))
  else if bool_decide (event = SAVE) then
    match t_filename t with
    | Some filename =>
        if negb (String.eqb filename "") then
          let* saved := save (current_still l) filename in
          run (if negb saved then popup_ok filename else ret tt)
          then ret (Continue l)
        else ret (Continue l)
    | None => ret (Continue l)
    end
  else if bool_decide (event = UPDATE_DELTA) then
    let '(delta', valid) := validate_delta (Py.Str (v_DELTA values)) in
    run (if negb valid then window_DELTA_update Py.str_DELTA else ret tt)
    then ret (Continue (mkLocals (current_still l) delta' (next_reload_time l)))
  else
    ret (Continue l).

(** The start of [main]: the first refresh and the first deadline. *)
Definition main_init (get : network) (now : Z) : M locals :=
  let* still := refresh get false FEED_URL in
  let delta := DELTA in
  ret (mkLocals still delta (now + timedelta_seconds delta)).

(** The loop, for as many iterations as the environment has ticks. *)
Fixpoint main_loop (ts : list tick) (l : locals) : M unit :=
  match ts with
  | [] => ret tt
  | t :: ts' =>
      let* c := main_step t l in
      match c with
      | Continue l' => main_loop ts' l'
      | Break => ret tt
      end
  end.

Definition empty_world : world :=
  mkWorld ∅ None None [] ∅ (fun _ => false).

(** ** Reference computations and sample inputs *)

(** What [_topng] leaves in [self.image]: the same picture, format PNG. *)
Definition as_png (img : Image) : Image :=
  mkImage (Some PNG) (Image_picture img).

(** A server that answers 200 with a body that is no image. *)
Definition empty_body_network : network :=
  fun _ => Ok (mkResponse 200 (Raw [])).

(** A host that cannot be reached. *)
Definition unreachable_network : network :=
  fun _ => Raise ConnectionError.

(** A server that does not answer within the timeouts. *)
Definition unreachable_timeout : network :=
  fun _ => Raise ConnectTimeout.

(** The frame after [resize(new_size)]. *)
Definition resized (fr : StillFrame) (new_size : Z * Z) : StillFrame :=
  if size_eqb (Image_size (image fr)) new_size then fr
  else mkStillFrame (Image_resize (image fr) new_size) (original fr).

(** One aspect-ratio toggle on the frame itself: [still.resize(still.new_size())],
    the frame operations of the '-RESIZE-' branch of [main]. *)
Definition toggle (self : ref) : M ref :=
  let* size := new_size self in
  resize self size.

(** The sizes of [image] and [original] of a frame. *)
Definition sizes (self : ref) : M ((Z * Z) * (Z * Z)) :=
  let* image := get_image self in
  let* original := get_original self in
  ret (Image_size image, Image_size original).

(** The size that [new_size] answers for a frame. *)
Definition toggled_size (fr : StillFrame) : Z * Z :=
  if size_eqb (Image_size (image fr)) (Image_size (original fr))
  then (WIDTH, HEIGHT_16_9) else (WIDTH, HEIGHT).

(** A frame is built from [img] and toggled [n] times; the sizes of its
    image and of its cached original are read afterwards. *)
Fixpoint toggles (n : nat) (self : ref) : M ref :=
  match n with
  | O => ret self
  | S n' => let* _ := toggle self in toggles n' self
  end.

Definition sizes_after_toggles (n : nat) (img : Image) : M ((Z * Z) * (Z * Z)) :=
  let* still := StillFrame__init__ img in
  let* _ := toggles n still in
  sizes still.

(** A decoded JPEG of 640x480 pixels. *)
Definition jpeg_640x480 : Image :=
  mkImage (Some JPEG) (mkPicture "RGB" (640, 480) (Bitmap [])).

(** The world after the placeholder has been wrapped in a frame. *)
Definition blank_frame_world : world :=
  snd (StillFrame__init__ make_blank_image_default empty_world).

(** An iteration in which the user pressed Set with the given text. *)
Definition set_pressed (text : string) (auto : bool) (now : Z) : tick :=
  mkTick UPDATE_DELTA (mkValues auto false text) now now
         unreachable_network None.

(** The world after [window['-IMAGE-'].update(data=data)]. *)
Definition displayed (data : pybytes) (w : world) : world :=
  mkWorld (frames w) (Some data) (window_DELTA w) (popups w)
          (files w) (unwritable w).

(** The frame that [refresh] leaves behind the reference it returns. *)
Definition refreshed (img : Image) (resize : bool) : StillFrame :=
  let fr := mkStillFrame (as_png img) (as_png img) in
  if resize then resized fr (WIDTH, HEIGHT_16_9) else fr.

(** The same iteration with another event. *)
Definition with_event (e : event) (t : tick) : tick :=
  mkTick e (t_values t) (t_now_due t) (t_now_next t) (t_get t) (t_filename t).

(** The states of [main]: the one after the start-up code, and the ones
    that an iteration ending without [break] and without an exception
    produces from such a state. *)
Inductive reachable : locals -> world -> Prop :=
  | reachable_init (get : network) (now : Z) (w0 : world) (l : locals) (w : world) :
      main_init get now w0 = (Ok l, w) -> reachable l w
  | reachable_step (t : tick) (l : locals) (w : world) (l' : locals) (w' : world) :
      reachable l w -> main_step t l w = (Ok (Continue l'), w') ->
      reachable l' w'.

(** The picture in the window is [bytes()] of the current still. *)
Definition shows_current_still (l : locals) (w : world) : Prop :=
  exists fr, frames w !! current_still l = Some fr
             /\ window_IMAGE w = Some (Image_save (image fr) PNG).

(** The sizes an image of a frame takes during the loop. *)
Definition known_size (fr : StillFrame) : Prop :=
  Image_size (image fr) = Image_size (original fr)
  \/ Image_size (image fr) = (WIDTH, HEIGHT_16_9)
  \/ Image_size (image fr) = (WIDTH, HEIGHT).

(** An iteration without an event in which no automatic reload fires. *)
Definition idle (deadline : Z) (t : tick) : bool :=
  bool_decide (t_event t = TIMEOUT)
  && negb (v_AUTORELOAD (t_values t) && timeout_due (t_now_due t) deadline).

(** What every state of the loop satisfies: the current still is in the
    store, the window shows its [bytes()], its cached original is a PNG
    image, its image has one of the three sizes, and the interval is
    within its bounds. *)
Definition loop_invariant (l : locals) (w : world) : Prop :=
  (exists fr, frames w !! current_still l = Some fr
              /\ window_IMAGE w = Some (Image_save (image fr) PNG)
              /\ Image_format (original fr) = Some PNG
              /\ known_size fr)
  /\ MIN_DELTA <= delta l <= MAX_DELTA.

(** The world after [sg.popup_ok('Error while saving file:', filename)]. *)
Definition popped (filename : string) (w : world) : world :=
  mkWorld (frames w) (window_IMAGE w) (window_DELTA w)
          (filename :: popups w) (files w) (unwritable w).

(** The state after start-up at time 0 when the first request times out. *)
Definition start_locals : locals := mkLocals 1 45 45000000.

Definition start_world : world :=
  snd (main_init unreachable_timeout 0 empty_world).

(** An iteration with the given event and check boxes, at the given time,
    with a network that times out and a cancelled file dialogue. *)
Definition sample_tick (e : event) (auto correct : bool) (now : Z) : tick :=
  mkTick e (mkValues auto correct "45") now now unreachable_timeout None.


(** A server that answers 200 with a JPEG of 640x480 pixels. *)
Definition jpeg_network : network :=
  fun _ => Ok (mkResponse 200 (Encoded JPEG (Image_picture jpeg_640x480))).

(** A store whose only frame holds that JPEG, not yet converted. *)
Definition jpeg_frame_world : world :=
  set_frames (insert 1%positive (mkStillFrame jpeg_640x480 jpeg_640x480))
             empty_world.

(** * Properties *)

(** ** The interval validator *)

Lemma int_Str_100 : Py.int (Py.Str "100") = Ok 100.
Proof. reflexivity. Qed.

Lemma int_Str_10 : Py.int (Py.Str "10") = Ok 10.
Proof. reflexivity. Qed.

Lemma int_Str_abc : Py.int (Py.Str "abc") = Raise ValueError.
Proof. reflexivity. Qed.

(** The range test of [validate_delta] as a proposition. *)
Lemma in_range_iff (n : Z) :
  (MIN_DELTA <=? n) && (n <=? MAX_DELTA) = true <-> MIN_DELTA <= n <= MAX_DELTA.
Proof. rewrite andb_true_iff, !Z.leb_le. tauto. Qed.

Lemma validate_delta_Ok (value : Py.value) (n : Z) :
  Py.int value = Ok n ->
  validate_delta value =
    if (MIN_DELTA <=? n) && (n <=? MAX_DELTA) then (n, true) else (DELTA, false).
Proof.
  intros Hint. unfold validate_delta. rewrite Hint.
  destruct ((MIN_DELTA <=? n) && (n <=? MAX_DELTA)); reflexivity.
Qed.

Lemma validate_delta_Raise (value : Py.value) (e : exn) :
  Py.int value = Raise e -> validate_delta value = (DELTA, false).
Proof. intros Hint. unfold validate_delta. rewrite Hint. reflexivity. Qed.

(** C2: an input that parses as an integer within [MIN_DELTA, MAX_DELTA] =
    [45, 300] is returned with the flag true; an input that does not parse,
    or parses to a value outside the range, yields the default 45 (not the
    nearest bound) with the flag false.  In particular "100" gives
    (100, true), "10" gives (45, false) and "abc" gives (45, false). *)
Theorem validate_delta_spec (value : Py.value) :
  (forall n, Py.int value = Ok n -> MIN_DELTA <= n <= MAX_DELTA ->
     validate_delta value = (n, true))
  /\ (forall n, Py.int value = Ok n -> ~ (MIN_DELTA <= n <= MAX_DELTA) ->
        validate_delta value = (DELTA, false))
  /\ (forall e, Py.int value = Raise e -> validate_delta value = (DELTA, false))
  /\ (MIN_DELTA, DELTA, MAX_DELTA) = (45, 45, 300)
  /\ validate_delta (Py.Str "100") = (100, true)
  /\ validate_delta (Py.Str "10") = (45, false)
  /\ validate_delta (Py.Str "abc") = (45, false).
Proof.
  repeat split; try reflexivity.
  - intros n Hint Hrange. rewrite (validate_delta_Ok _ _ Hint).
    apply in_range_iff in Hrange. rewrite Hrange. reflexivity.
  - intros n Hint Hrange. rewrite (validate_delta_Ok _ _ Hint).
    destruct ((MIN_DELTA <=? n) && (n <=? MAX_DELTA)) eqn:Hb; [|reflexivity].
    apply in_range_iff in Hb. contradiction.
  - intros e. apply validate_delta_Raise.
Qed.

Lemma validate_delta_spec_witness :
  validate_delta (Py.Str " 2_50 ") = (250, true)
  /\ validate_delta (Py.Int 301) = (DELTA, false)
  /\ validate_delta Py.None_ = (DELTA, false).
Proof.
  split; [|split].
  - apply (proj1 (validate_delta_spec (Py.Str " 2_50 ")) 250).
    + reflexivity.
    + unfold MIN_DELTA, MAX_DELTA. lia.
  - apply (proj1 (proj2 (validate_delta_spec (Py.Int 301))) 301).
    + reflexivity.
    + unfold MIN_DELTA, MAX_DELTA. lia.
  - apply (proj1 (proj2 (proj2 (validate_delta_spec Py.None_))) TypeError).
    reflexivity.
Defined.

(** C9: whatever the input, the interval that [validate_delta] returns lies
    in [MIN_DELTA, MAX_DELTA] = [45, 300], also when the flag is false. *)
Theorem validate_delta_in_range (value : Py.value) :
  MIN_DELTA <= fst (validate_delta value) <= MAX_DELTA
  /\ (MIN_DELTA, MAX_DELTA) = (45, 300)
  /\ (snd (validate_delta value) = false -> fst (validate_delta value) = 45).
Proof.
  assert (Hdefault : MIN_DELTA <= DELTA <= MAX_DELTA)
    by (unfold DELTA, MIN_DELTA, MAX_DELTA; lia).
  destruct (Py.int value) as [n|e] eqn:Hint.
  - rewrite (validate_delta_Ok _ _ Hint).
    destruct ((MIN_DELTA <=? n) && (n <=? MAX_DELTA)) eqn:Hb; simpl.
    + apply in_range_iff in Hb. repeat split; try tauto. discriminate.
    + repeat split; tauto.
  - rewrite (validate_delta_Raise _ _ Hint). simpl. repeat split; tauto.
Qed.

Lemma validate_delta_in_range_witness :
  fst (validate_delta (Py.Str "7")) = 45.
Proof.
  apply (proj2 (proj2 (validate_delta_in_range (Py.Str "7")))).
  reflexivity.
Defined.

(** ** The timer *)

Lemma timeout_due_iff (rightnow deadline : Z) :
  timeout_due rightnow deadline = true <-> rightnow >= deadline.
Proof. unfold timeout_due. rewrite Z.geb_le. lia. Qed.

(** C8: [next_timeout] is the current time plus [delta] seconds, and
    [timeout_due] holds exactly when the current time is at or after the
    deadline; so a deadline computed from a positive interval is not due at
    the moment of its computation and is due at every time at or after it. *)
Theorem timer_spec (rightnow delta : Z) :
  next_timeout rightnow delta = rightnow + delta * 1000000
  /\ (forall t deadline, timeout_due t deadline = true <-> t >= deadline)
  /\ (0 < delta ->
        timeout_due rightnow (next_timeout rightnow delta) = false
        /\ forall later, later >= next_timeout rightnow delta ->
             timeout_due later (next_timeout rightnow delta) = true).
Proof.
  split; [reflexivity|]. split; [intros; apply timeout_due_iff|].
  intros Hpos. split.
  - apply not_true_is_false. rewrite timeout_due_iff.
    unfold next_timeout, timedelta_seconds. lia.
  - intros later Hlater. apply timeout_due_iff. exact Hlater.
Qed.

Lemma timer_spec_witness :
  timeout_due 1000 (next_timeout 1000 45) = false
  /\ timeout_due 45001000 (next_timeout 1000 45) = true.
Proof.
  destruct (proj2 (proj2 (timer_spec 1000 45))) as [Hnow Hlater]; [lia|].
  split; [exact Hnow|]. apply Hlater. unfold next_timeout, timedelta_seconds. lia.
Defined.

(** ** Fetching *)

(** What [download_image] does in each case of the network's answer. *)
Lemma download_image_cases (get : network) (url : string) :
  match get url with
  | Ok response =>
      if status_code response =? 200
      then download_image get url = Image_open (content response)
      else download_image get url = Ok make_blank_image_default
  | Raise e =>
      if is_Timeout e
      then download_image get url = Ok make_blank_image_default
      else download_image get url = Raise e
  end.
Proof.
  unfold download_image.
  destruct (get url) as [response|e]; simpl.
  - destruct (status_code response =? 200); [|reflexivity].
    destruct (content response); reflexivity.
  - destruct (is_Timeout e); reflexivity.
Qed.

Lemma make_blank_image_default_spec :
  Image_size make_blank_image_default = (704, 480)
  /\ pic_pixels (Image_picture make_blank_image_default) = Solid "blue".
Proof. split; reflexivity. Qed.

(** C1, at the failing inputs: a decode failure of a 200 response and a
    connection error are not caught by [except Timeout]; [download_image]
    raises them instead of returning the placeholder, while a non-200
    status and a timeout do give the blue 704x480 placeholder. *)
Theorem download_image_raises_past_boundary :
  download_image empty_body_network FEED_URL = Raise UnidentifiedImageError
  /\ download_image unreachable_network FEED_URL = Raise ConnectionError
  /\ download_image (fun _ => Ok (mkResponse 404 (Raw []))) FEED_URL
       = Ok make_blank_image_default
  /\ download_image (fun _ => Raise ReadTimeout) FEED_URL
       = Ok make_blank_image_default.
Proof. repeat split. Qed.

(** ** The store *)

Lemma size_eqb_eq (a b : Z * Z) : size_eqb a b = true <-> a = b.
Proof.
  destruct a as [aw ah], b as [bw bh]. unfold size_eqb. simpl.
  rewrite andb_true_iff, !Z.eqb_eq. split.
  - intros [-> ->]. reflexivity.
  - intros [= -> ->]. split; reflexivity.
Qed.

Lemma size_eqb_refl (a : Z * Z) : size_eqb a a = true.
Proof. apply size_eqb_eq. reflexivity. Qed.


Lemma set_frames_insert_twice (self : ref) (a b : StillFrame) (w : world) :
  set_frames (insert self b) (set_frames (insert self a) w)
  = set_frames (insert self b) w.
Proof. unfold set_frames. simpl. rewrite insert_insert_eq. reflexivity. Qed.

Lemma get_image_run (self : ref) (fr : StillFrame) (w : world) :
  frames w !! self = Some fr -> get_image self w = (Ok (image fr), w).
Proof. intros H. unfold get_image. rewrite H. reflexivity. Qed.

Lemma get_original_run (self : ref) (fr : StillFrame) (w : world) :
  frames w !! self = Some fr -> get_original self w = (Ok (original fr), w).
Proof. intros H. unfold get_original. rewrite H. reflexivity. Qed.

Lemma set_image_run (self : ref) (fr : StillFrame) (im : Image) (w : world) :
  frames w !! self = Some fr ->
  set_image self im w
  = (Ok tt, set_frames (insert self (mkStillFrame im (original fr))) w).
Proof. intros H. unfold set_image. rewrite H. reflexivity. Qed.

Lemma lookup_set_frames_insert (self : ref) (fr : StillFrame) (w : world) :
  frames (set_frames (insert self fr) w) !! self = Some fr.
Proof. simpl. apply lookup_insert_eq. Qed.

Lemma lookup_set_frames_insert_ne (self other : ref) (fr : StillFrame) (w : world) :
  other <> self ->
  frames (set_frames (insert self fr) w) !! other = frames w !! other.
Proof. intros Hne. simpl. apply lookup_insert_ne. congruence. Qed.

(** The constructor, run: a fresh reference holding the PNG image twice. *)
Lemma StillFrame__init___run (img : Image) (w : world) :
  StillFrame__init__ img w
  = (Ok (fresh (dom (frames w))),
     set_frames (insert (fresh (dom (frames w)))
                   (mkStillFrame (as_png img) (as_png img))) w).
Proof.
  unfold StillFrame__init__, bind at 1, alloc.
  set (self := fresh (dom (frames w))).
  unfold bind at 1, _topng, bind at 1.
  rewrite (get_image_run self _ _ (lookup_set_frames_insert self _ w)). simpl image.
  destruct (bool_decide (Image_format img = Some PNG)) eqn:Hfmt; simpl negb; cbv iota.
  - apply bool_decide_eq_true in Hfmt.
    assert (Himg : as_png img = img)
      by (destruct img; unfold as_png; simpl in *; congruence).
    rewrite Himg. unfold bind, ret.
    rewrite (get_image_run self _ _ (lookup_set_frames_insert self _ w)).
    simpl image. unfold set_original. rewrite lookup_set_frames_insert.
    simpl image. rewrite set_frames_insert_twice. reflexivity.
  - unfold bind at 1. unfold bind at 1. unfold lift, Image_save, Image_open.
    rewrite (set_image_run self _ _ _ (lookup_set_frames_insert self _ w)).
    rewrite set_frames_insert_twice. unfold ret, bind.
    rewrite (get_image_run self _ _ (lookup_set_frames_insert self _ w)).
    unfold set_original. rewrite lookup_set_frames_insert.
    simpl. rewrite set_frames_insert_twice. reflexivity.
Qed.

Lemma new_size_run (self : ref) (fr : StillFrame) (w : world) :
  frames w !! self = Some fr ->
  new_size self w
  = (Ok (if size_eqb (Image_size (image fr)) (Image_size (original fr))
         then (WIDTH, HEIGHT_16_9) else (WIDTH, HEIGHT)), w).
Proof.
  intros H. unfold new_size, bind.
  rewrite (get_image_run _ _ _ H), (get_original_run _ _ _ H). reflexivity.
Qed.

Lemma bytes_run (self : ref) (fr : StillFrame) (w : world) :
  frames w !! self = Some fr ->
  bytes self w = (Ok (Image_save (image fr) PNG), w).
Proof.
  intros H. unfold bytes, bind. rewrite (get_image_run _ _ _ H). reflexivity.
Qed.

Lemma resize_run (self : ref) (fr : StillFrame) (target : Z * Z) (w : world) :
  frames w !! self = Some fr ->
  resize self target w
  = (Ok self,
     if size_eqb (Image_size (image fr)) target then w
     else set_frames (insert self (resized fr target)) w).
Proof.
  intros H. unfold resize, resized, bind. rewrite (get_image_run _ _ _ H).
  destruct (size_eqb (Image_size (image fr)) target); simpl.
  - reflexivity.
  - rewrite (set_image_run _ _ _ _ H). reflexivity.
Qed.

(** After [resize] the store holds [resized fr target] at [self] and is
    unchanged elsewhere. *)
Lemma resize_frames (self : ref) (fr : StillFrame) (target : Z * Z) (w : world) :
  frames w !! self = Some fr ->
  frames (snd (resize self target w)) !! self = Some (resized fr target)
  /\ forall other, other <> self ->
       frames (snd (resize self target w)) !! other = frames w !! other.
Proof.
  intros H. rewrite (resize_run _ _ _ _ H). unfold resized. simpl.
  destruct (size_eqb (Image_size (image fr)) target).
  - split; [exact H | reflexivity].
  - split; [apply lookup_set_frames_insert|].
    intros other Hne. apply lookup_set_frames_insert_ne. exact Hne.
Qed.

Lemma resized_size (fr : StillFrame) (target : Z * Z) :
  Image_size (image (resized fr target)) = target.
Proof.
  unfold resized.
  destruct (size_eqb (Image_size (image fr)) target) eqn:Heq.
  - apply size_eqb_eq. exact Heq.
  - reflexivity.
Qed.

Lemma resized_original (fr : StillFrame) (target : Z * Z) :
  original (resized fr target) = original fr.
Proof.
  unfold resized. destruct (size_eqb (Image_size (image fr)) target); reflexivity.
Qed.


(** ** Frames *)



(** C10: whenever the constructor returns, the stored image is the cached
    original, so the first [new_size] on the new frame answers the 16:9
    size (704, 396) whatever the dimensions of the image. *)
Theorem fresh_frame_new_size (img : Image) (w : world) (self : ref)
    (w' : world) :
  StillFrame__init__ img w = (Ok self, w') ->
  exists fr,
    frames w' !! self = Some fr
    /\ image fr = original fr
    /\ new_size self w' = (Ok (704, 396), w').
Proof.
  rewrite StillFrame__init___run. intros [= <- <-].
  exists (mkStillFrame (as_png img) (as_png img)).
  split; [apply lookup_set_frames_insert|]. split; [reflexivity|].
  rewrite (new_size_run _ _ _ (lookup_set_frames_insert _ _ w)).
  simpl image. simpl original. rewrite size_eqb_refl. reflexivity.
Qed.

Lemma fresh_frame_new_size_witness :
  new_size 1 (snd (StillFrame__init__ jpeg_640x480 empty_world))
  = (Ok (704, 396), snd (StillFrame__init__ jpeg_640x480 empty_world)).
Proof.
  destruct (fresh_frame_new_size jpeg_640x480 empty_world 1%positive
              (snd (StillFrame__init__ jpeg_640x480 empty_world)))
    as (fr & _ & _ & Hsize).
  - vm_compute. reflexivity.
  - exact Hsize.
Defined.



(** ** Toggling the aspect ratio *)

Lemma toggle_run (self : ref) (fr : StillFrame) (w : world) :
  frames w !! self = Some fr ->
  exists w',
    toggle self w = (Ok self, w')
    /\ frames w' !! self = Some (resized fr (toggled_size fr))
    /\ forall other, other <> self -> frames w' !! other = frames w !! other.
Proof.
  intros H. unfold toggle, bind. rewrite (new_size_run _ _ _ H).
  fold (toggled_size fr).
  destruct (resize_frames self fr (toggled_size fr) w H) as [Hself Hother].
  rewrite (resize_run _ _ _ _ H) in *. simpl in Hself, Hother.
  eexists. split; [reflexivity|]. split; assumption.
Qed.

(** X22: On a frame whose cached original has the native size 704x480 and whose
    image has the native or the 16:9 size, two toggles bring the image
    back to the size it had. *)
Lemma toggle_twice_native (self : ref) (fr : StillFrame) (w : world) :
  frames w !! self = Some fr ->
  Image_size (original fr) = (WIDTH, HEIGHT) ->
  Image_size (image fr) = (WIDTH, HEIGHT)
  \/ Image_size (image fr) = (WIDTH, HEIGHT_16_9) ->
  exists w' fr',
    toggles 2 self w = (Ok self, w')
    /\ frames w' !! self = Some fr'
    /\ Image_size (image fr') = Image_size (image fr)
    /\ original fr' = original fr.
Proof.
  intros H Horig Hsize.
  destruct (toggle_run self fr w H) as (w1 & Hrun1 & Hfr1 & _).
  destruct (toggle_run self _ w1 Hfr1) as (w2 & Hrun2 & Hfr2 & _).
  exists w2. eexists. simpl toggles. unfold bind at 1. rewrite Hrun1.
  unfold bind at 1. rewrite Hrun2. split; [reflexivity|].
  split; [exact Hfr2|]. rewrite !resized_original. split; [|reflexivity].
  rewrite resized_size. unfold toggled_size at 1.
  rewrite resized_original, resized_size, Horig.
  unfold toggled_size. rewrite Horig.
  destruct Hsize as [Hs|Hs]; rewrite Hs; reflexivity.
Qed.

(** C3, at the failing input: a frame built from a 640x480 image and
    toggled twice holds a 704x480 image, not one of its original size
    640x480; a third toggle leaves 704x480, so the toggle no longer
    switches to 16:9. *)
Theorem toggle_twice_640x480 :
  fst (sizes_after_toggles 0 jpeg_640x480 empty_world)
    = Ok ((640, 480), (640, 480))
  /\ fst (sizes_after_toggles 1 jpeg_640x480 empty_world)
       = Ok ((704, 396), (640, 480))
  /\ fst (sizes_after_toggles 2 jpeg_640x480 empty_world)
       = Ok ((704, 480), (640, 480))
  /\ fst (sizes_after_toggles 3 jpeg_640x480 empty_world)
       = Ok ((704, 480), (640, 480)).
Proof. repeat split; vm_compute; reflexivity. Qed.

(** ** Instances and sharing *)





(** ** The event loop *)

(** The reload branch schedules the next deadline with the [delta] that the
    loop holds at that moment, and only when auto-reload is on. *)
Lemma reload_schedules_with_delta (t : tick) (l l' : locals) (w w' : world) :
  bool_decide (t_event t = RELOAD)
  || (v_AUTORELOAD (t_values t)
      && timeout_due (t_now_due t) (next_reload_time l)) = true ->
  t_event t <> WIN_CLOSED -> t_event t <> Exit ->
  main_step t l w = (Ok (Continue l'), w') ->
  delta l' = delta l
  /\ next_reload_time l'
     = if v_AUTORELOAD (t_values t)
       then next_timeout (t_now_next t) (delta l)
       else next_reload_time l.
Proof.
  intros Hreload Hclosed Hexit. unfold main_step.
  rewrite (bool_decide_eq_false_2 _ Hclosed), (bool_decide_eq_false_2 _ Hexit).
  cbn [orb]. rewrite Hreload. unfold bind.
  destruct (refresh _ _ _ w) as [[still|e] w1]; [|discriminate].
  unfold ret. intros [= <- <-]. split; reflexivity.
Qed.

(** When Set is pressed in an iteration where auto-reload is on and the
    deadline has passed, the reload branch runs in its place. *)
Lemma update_delta_behind_due_reload (t : tick) (l : locals) (w : world) :
  t_event t = UPDATE_DELTA ->
  v_AUTORELOAD (t_values t)
  && timeout_due (t_now_due t) (next_reload_time l) = true ->
  main_step t l w
  = main_step (mkTick RELOAD (t_values t) (t_now_due t) (t_now_next t)
                      (t_get t) (t_filename t)) l w.
Proof.
  intros Hev Hdue. unfold main_step. rewrite Hev. simpl t_event.
  simpl t_values. simpl t_now_due. rewrite Hdue. reflexivity.
Qed.

(** * Further properties of gui.py *)

(** ** Saving *)

Lemma save_run_writable (still : ref) (fr : StillFrame) (path : string)
    (w : world) :
  frames w !! still = Some fr ->
  unwritable w path = false ->
  save still path w
  = (Ok true, set_files (insert path (Image_save (image fr) PNG)) w).
Proof.
  intros Hfr Hpath. unfold save, try_except, bind at 1, open_wb.
  rewrite Hpath. unfold bind at 1.
  rewrite (bytes_run still fr (set_files _ w) Hfr).
  unfold bind, file_write, ret, set_files. simpl.
  rewrite insert_insert_eq. reflexivity.
Qed.

Lemma save_run_unwritable (still : ref) (path : string) (w : world) :
  unwritable w path = true -> save still path w = (Ok false, w).
Proof.
  intros Hpath. unfold save, try_except, bind at 1, open_wb.
  rewrite Hpath. reflexivity.
Qed.

(** X1: [save] on a path that can be written answers True; the file then holds
    the PNG encoding of the frame's current image, which opens again as a
    PNG image with the same picture; other files, the frames, the window
    and the popups are as before. *)
Theorem save_writes_png (still : ref) (fr : StillFrame) (path : string)
    (w : world) :
  frames w !! still = Some fr ->
  unwritable w path = false ->
  exists w' im,
    save still path w = (Ok true, w')
    /\ files w' !! path = Some (Image_save (image fr) PNG)
    /\ Image_open (Image_save (image fr) PNG) = Ok im
    /\ Image_format im = Some PNG
    /\ Image_picture im = Image_picture (image fr)
    /\ (forall other, other <> path -> files w' !! other = files w !! other)
    /\ frames w' = frames w
    /\ window_IMAGE w' = window_IMAGE w
    /\ popups w' = popups w.
Proof.
  intros Hfr Hpath. rewrite (save_run_writable _ _ _ _ Hfr Hpath).
  do 2 eexists. split; [reflexivity|]. simpl.
  split; [apply lookup_insert_eq|]. split; [reflexivity|].
  split; [reflexivity|]. split; [reflexivity|].
  split; [|repeat split].
  intros other Hne. apply lookup_insert_ne. congruence.
Qed.

Lemma save_writes_png_witness :
  exists w', save 1 "still.png" blank_frame_world = (Ok true, w')
             /\ files w' !! "still.png"
                = Some (Encoded PNG (mkPicture "RGB" (704, 480) (Solid "blue"))).
Proof.
  destruct (save_writes_png 1
              (mkStillFrame (as_png make_blank_image_default)
                            (as_png make_blank_image_default))
              "still.png" blank_frame_world)
    as (w' & im & Hrun & Hfile & _).
  - vm_compute. reflexivity.
  - reflexivity.
  - exists w'. split; [exact Hrun | exact Hfile].
Defined.

(** X2: [save] on a path where [open] raises OSError answers False instead of
    raising, and nothing has changed: no file, no frame, no popup. *)
Theorem save_unwritable_returns_false (still : ref) (path : string) (w : world) :
  unwritable w path = true ->
  save still path w = (Ok false, w)
  /\ forall e, fst (save still path w) <> Raise e.
Proof.
  intros Hpath. rewrite (save_run_unwritable _ _ _ Hpath).
  split; [reflexivity | discriminate].
Qed.

Lemma save_unwritable_returns_false_witness :
  save 1 "/still.png"
       (mkWorld ∅ None None [] ∅ (fun path => String.prefix "/" path))
  = (Ok false, mkWorld ∅ None None [] ∅ (fun path => String.prefix "/" path)).
Proof.
  apply (save_unwritable_returns_false 1 "/still.png"
           (mkWorld ∅ None None [] ∅ (fun path => String.prefix "/" path))).
  reflexivity.
Defined.

(** ** Refreshing *)

Lemma change_aspect_ratio_result (still : ref) (fr : StillFrame)
    (target : Z * Z) (w : world) :
  frames w !! still = Some fr ->
  change_aspect_ratio still target w
  = (Ok still,
     displayed (Image_save (image (resized fr target)) PNG)
               (set_frames (insert still (resized fr target)) w)).
Proof.
  intros H. unfold change_aspect_ratio, bind at 1.
  rewrite (resize_run _ _ _ _ H).
  destruct (size_eqb (Image_size (image fr)) target) eqn:Hcmp.
  - assert (Hsame : resized fr target = fr)
      by (unfold resized; rewrite Hcmp; reflexivity).
    rewrite Hsame. unfold bind. rewrite (bytes_run _ _ _ H).
    unfold window_IMAGE_update, ret, displayed, set_frames. simpl.
    rewrite (insert_id _ _ _ H). reflexivity.
  - unfold bind.
    rewrite (bytes_run _ _ _ (lookup_set_frames_insert still _ w)).
    reflexivity.
Qed.

Lemma refresh_result (get : network) (rs : bool) (feed : string) (w : world) :
  refresh get rs feed w
  = match download_image get feed with
    | Ok img =>
        (Ok (fresh (dom (frames w))),
         displayed (Image_save (image (refreshed img rs)) PNG)
                   (set_frames (insert (fresh (dom (frames w)))
                                       (refreshed img rs)) w))
    | Raise e => (Raise e, w)
    end.
Proof.
  unfold refresh, bind at 1, lift.
  destruct (download_image get feed) as [img|e]; [|reflexivity].
  unfold bind at 1. rewrite StillFrame__init___run.
  set (self := fresh (dom (frames w))).
  pose proof (lookup_set_frames_insert self
                (mkStillFrame (as_png img) (as_png img)) w) as Hself.
  unfold refreshed. destruct rs.
  - rewrite (change_aspect_ratio_result _ _ _ _ Hself).
    rewrite set_frames_insert_twice. reflexivity.
  - unfold bind. rewrite (bytes_run _ _ _ Hself). reflexivity.
Qed.

Lemma download_image_200 (get : network) (feed : string) (r : Response)
    (f : format) (p : picture) :
  get feed = Ok r -> status_code r = 200 -> content r = Encoded f p ->
  download_image get feed = Ok (mkImage (Some f) p).
Proof.
  intros Hget Hstatus Hbody. unfold download_image.
  rewrite Hget, Hstatus, Hbody. reflexivity.
Qed.

Lemma download_image_placeholder (get : network) (feed : string) :
  (exists r, get feed = Ok r /\ status_code r <> 200)
  \/ (exists e, get feed = Raise e /\ is_Timeout e = true) ->
  download_image get feed = Ok make_blank_image_default.
Proof.
  unfold download_image. intros [(r & Hget & Hstatus) | (e & Hget & Htimeout)].
  - rewrite Hget. apply Z.eqb_neq in Hstatus. rewrite Hstatus. reflexivity.
  - rewrite Hget. simpl. rewrite Htimeout. reflexivity.
Qed.

(** X3: When the server answers 200 with an image in any container format
    and [refresh] returns, the frame it returns has that picture as PNG
    for its cached original, and the window has received the PNG encoding
    of the frame's image: the downloaded picture itself without aspect
    correction, a 704x396 image with it.  No file is written. *)
Theorem refresh_shows_downloaded_picture (get : network) (rs : bool)
    (feed : string) (w : world) (r : Response) (f : format) (p : picture)
    (still : ref) (w' : world) :
  get feed = Ok r -> status_code r = 200 -> content r = Encoded f p ->
  refresh get rs feed w = (Ok still, w') ->
  exists fr,
    frames w' !! still = Some fr
    /\ original fr = mkImage (Some PNG) p
    /\ window_IMAGE w' = Some (Image_save (image fr) PNG)
    /\ (rs = false -> window_IMAGE w' = Some (Encoded PNG p))
    /\ (rs = true -> Image_size (image fr) = (704, 396))
    /\ files w' = files w.
Proof.
  intros Hget Hstatus Hbody. rewrite refresh_result.
  rewrite (download_image_200 _ _ _ _ _ Hget Hstatus Hbody).
  intros [= <- <-].
  exists (refreshed (mkImage (Some f) p) rs). simpl.
  split; [apply lookup_insert_eq|].
  split; [unfold refreshed; destruct rs; [apply resized_original | reflexivity]|].
  split; [reflexivity|]. split; [intros ->; reflexivity|].
  split; [|reflexivity]. intros ->. unfold refreshed. apply resized_size.
Qed.

Lemma refresh_shows_downloaded_picture_witness :
  window_IMAGE (snd (refresh jpeg_network false FEED_URL empty_world))
  = Some (Encoded PNG (Image_picture jpeg_640x480)).
Proof.
  destruct (refresh_shows_downloaded_picture
              jpeg_network false FEED_URL empty_world
              (mkResponse 200 (Encoded JPEG (Image_picture jpeg_640x480)))
              JPEG (Image_picture jpeg_640x480) 1%positive
              (snd (refresh jpeg_network false FEED_URL empty_world)))
    as (fr & _ & _ & _ & Hshown & _).
  - reflexivity.
  - reflexivity.
  - reflexivity.
  - vm_compute. reflexivity.
  - apply Hshown. reflexivity.
Defined.

(** X4: When the server answers with another status than 200, or the request
    times out, [refresh] does not fail: the window receives the PNG of a
    solid blue RGB picture, 704x480 without aspect correction and that
    picture scaled to 704x396 with it. *)
Theorem refresh_placeholder (get : network) (rs : bool) (feed : string)
    (w : world) :
  (exists r, get feed = Ok r /\ status_code r <> 200)
  \/ (exists e, get feed = Raise e /\ is_Timeout e = true) ->
  exists still w',
    refresh get rs feed w = (Ok still, w')
    /\ window_IMAGE w'
       = Some (Encoded PNG
                 (if rs
                  then mkPicture "RGB" (704, 396)
                                 (Resampled (Solid "blue") (704, 480))
                  else mkPicture "RGB" (704, 480) (Solid "blue"))).
Proof.
  intros Hnet. rewrite refresh_result, (download_image_placeholder _ _ Hnet).
  do 2 eexists. split; [reflexivity|]. destruct rs; reflexivity.
Qed.

Lemma refresh_placeholder_witness :
  exists still w',
    refresh (fun _ => Ok (mkResponse 503 (Raw []))) true FEED_URL empty_world
    = (Ok still, w')
    /\ encoded_size <$> window_IMAGE w' = Some (Some (704, 396)).
Proof.
  destruct (refresh_placeholder (fun _ => Ok (mkResponse 503 (Raw [])))
              true FEED_URL empty_world)
    as (still & w' & Hrun & Hshown).
  - left. exists (mkResponse 503 (Raw [])). split; [reflexivity|].
    simpl. lia.
  - exists still, w'. split; [exact Hrun|]. rewrite Hshown. reflexivity.
Defined.

(** ** Conversion to PNG *)

Lemma _topng_run (self : ref) (fr : StillFrame) (w : world) :
  frames w !! self = Some fr ->
  _topng self w
  = (Ok self,
     if bool_decide (Image_format (image fr) = Some PNG) then w
     else set_frames (insert self (mkStillFrame (as_png (image fr))
                                                (original fr))) w).
Proof.
  intros H. unfold _topng, bind at 1. rewrite (get_image_run _ _ _ H).
  destruct (bool_decide (Image_format (image fr) = Some PNG)); simpl.
  - reflexivity.
  - unfold bind at 1. unfold bind at 1. unfold lift, Image_save, Image_open.
    rewrite (set_image_run _ _ _ _ H). reflexivity.
Qed.

(** X5: [_topng] is idempotent: when a call returns, it returns the frame
    itself, the image of the frame has format PNG and the same picture,
    the cached original is untouched, and a second call returns without
    changing anything. *)
Theorem topng_idempotent (self : ref) (fr : StillFrame) (w : world)
    (r : ref) (w1 : world) :
  frames w !! self = Some fr ->
  _topng self w = (Ok r, w1) ->
  r = self
  /\ exists fr1,
       frames w1 !! self = Some fr1
       /\ Image_format (image fr1) = Some PNG
       /\ Image_picture (image fr1) = Image_picture (image fr)
       /\ original fr1 = original fr
       /\ _topng self w1 = (Ok self, w1).
Proof.
  intros H. rewrite (_topng_run _ _ _ H).
  destruct (bool_decide (Image_format (image fr) = Some PNG)) eqn:Hfmt;
    intros [= <- <-]; (split; [reflexivity|]).
  - exists fr. split; [exact H|].
    split; [apply bool_decide_eq_true in Hfmt; exact Hfmt|].
    split; [reflexivity|]. split; [reflexivity|].
    rewrite (_topng_run _ _ _ H), Hfmt. reflexivity.
  - eexists. split; [apply lookup_set_frames_insert|].
    split; [reflexivity|]. split; [reflexivity|]. split; [reflexivity|].
    rewrite (_topng_run _ _ _ (lookup_set_frames_insert _ _ _)). reflexivity.
Qed.

Lemma topng_idempotent_witness :
  _topng 1 (snd (_topng 1 jpeg_frame_world))
  = (Ok 1%positive, snd (_topng 1 jpeg_frame_world)).
Proof.
  destruct (topng_idempotent 1 (mkStillFrame jpeg_640x480 jpeg_640x480)
              jpeg_frame_world 1%positive (snd (_topng 1 jpeg_frame_world)))
    as (_ & fr1 & _ & _ & _ & _ & Hagain).
  - vm_compute. reflexivity.
  - vm_compute. reflexivity.
  - exact Hagain.
Defined.

(** ** Validation once more *)

(** X6: An interval that [validate_delta] has returned is accepted unchanged
    when it is validated again, whatever the first input was. *)
Theorem validate_delta_idempotent (value : Py.value) :
  validate_delta (Py.Int (fst (validate_delta value)))
  = (fst (validate_delta value), true).
Proof.
  assert (Hdefault : validate_delta (Py.Int DELTA) = (DELTA, true))
    by reflexivity.
  destruct (Py.int value) as [n|e] eqn:Hint.
  - rewrite (validate_delta_Ok _ _ Hint).
    destruct ((MIN_DELTA <=? n) && (n <=? MAX_DELTA)) eqn:Hrange; simpl fst.
    + rewrite (validate_delta_Ok (Py.Int n) n eq_refl), Hrange. reflexivity.
    + exact Hdefault.
  - rewrite (validate_delta_Raise _ _ Hint). exact Hdefault.
Qed.

(** ** The branches of the loop body *)

Lemma step_exit (t : tick) (l : locals) (w : world) :
  t_event t = WIN_CLOSED \/ t_event t = Exit ->
  main_step t l w = (Ok Break, w).
Proof. unfold main_step. intros [-> | ->]; reflexivity. Qed.

Lemma step_reload (t : tick) (l : locals) (w : world) :
  t_event t <> WIN_CLOSED -> t_event t <> Exit ->
  bool_decide (t_event t = RELOAD)
  || (v_AUTORELOAD (t_values t)
      && timeout_due (t_now_due t) (next_reload_time l)) = true ->
  main_step t l w
  = match download_image (t_get t) FEED_URL with
    | Ok img =>
        (Ok (Continue
               (mkLocals (fresh (dom (frames w))) (delta l)
                  (if v_AUTORELOAD (t_values t)
                   then next_timeout (t_now_next t) (delta l)
                   else next_reload_time l))),
         displayed
           (Image_save (image (refreshed img (v_RESIZE (t_values t)))) PNG)
           (set_frames (insert (fresh (dom (frames w)))
                               (refreshed img (v_RESIZE (t_values t)))) w))
    | Raise e => (Raise e, w)
    end.
Proof.
  intros Hclosed Hexit Hreload. unfold main_step.
  rewrite (bool_decide_eq_false_2 _ Hclosed), (bool_decide_eq_false_2 _ Hexit).
  cbn [orb]. rewrite Hreload. unfold bind. rewrite refresh_result.
  destruct (download_image (t_get t) FEED_URL); reflexivity.
Qed.

Lemma step_resize (t : tick) (l : locals) (w : world) (fr : StillFrame) :
  t_event t = RESIZE ->
  v_AUTORELOAD (t_values t)
  && timeout_due (t_now_due t) (next_reload_time l) = false ->
  frames w !! current_still l = Some fr ->
  main_step t l w
  = (Ok (Continue (mkLocals (current_still l) (delta l) (next_reload_time l))),
     displayed (Image_save (image (resized fr (toggled_size fr))) PNG)
               (set_frames (insert (current_still l)
                                   (resized fr (toggled_size fr))) w)).
Proof.
  intros Hev Hdue Hfr. unfold main_step. rewrite Hev, Hdue. simpl.
  unfold bind at 1. rewrite (new_size_run _ _ _ Hfr). fold (toggled_size fr).
  unfold bind. rewrite (change_aspect_ratio_result _ _ _ _ Hfr). reflexivity.
Qed.

Lemma step_save (t : tick) (l : locals) (w : world) (fr : StillFrame) :
  t_event t = SAVE ->
  v_AUTORELOAD (t_values t)
  && timeout_due (t_now_due t) (next_reload_time l) = false ->
  frames w !! current_still l = Some fr ->
  main_step t l w
  = (Ok (Continue l),
     match t_filename t with
     | Some filename =>
         if String.eqb filename "" then w
         else if unwritable w filename then popped filename w
         else set_files (insert filename (Image_save (image fr) PNG)) w
     | None => w
     end).
Proof.
  intros Hev Hdue Hfr. unfold main_step. rewrite Hev, Hdue. simpl.
  destruct (t_filename t) as [filename|]; [|reflexivity].
  destruct (String.eqb filename ""); simpl; [reflexivity|].
  unfold bind at 1.
  destruct (unwritable w filename) eqn:Hpath.
  - rewrite (save_run_unwritable _ _ _ Hpath). reflexivity.
  - rewrite (save_run_writable _ _ _ _ Hfr Hpath). reflexivity.
Qed.

Lemma step_update_delta (t : tick) (l : locals) (w : world) :
  t_event t = UPDATE_DELTA ->
  v_AUTORELOAD (t_values t)
  && timeout_due (t_now_due t) (next_reload_time l) = false ->
  main_step t l w
  = (Ok (Continue
           (mkLocals (current_still l)
                     (fst (validate_delta (Py.Str (v_DELTA (t_values t)))))
                     (next_reload_time l))),
     if snd (validate_delta (Py.Str (v_DELTA (t_values t)))) then w
     else mkWorld (frames w) (window_IMAGE w) (Some Py.str_DELTA) (popups w)
                  (files w) (unwritable w)).
Proof.
  intros Hev Hdue. unfold main_step. rewrite Hev, Hdue.
  destruct (validate_delta (Py.Str (v_DELTA (t_values t)))) as [d valid].
  destruct valid; reflexivity.
Qed.

Lemma step_idle (t : tick) (l : locals) (w : world) :
  t_event t = TIMEOUT ->
  v_AUTORELOAD (t_values t)
  && timeout_due (t_now_due t) (next_reload_time l) = false ->
  main_step t l w = (Ok (Continue l), w).
Proof.
  intros Hev Hdue. unfold main_step. rewrite Hev, Hdue. reflexivity.
Qed.

Lemma locals_eta (l : locals) :
  mkLocals (current_still l) (delta l) (next_reload_time l) = l.
Proof. destruct l. reflexivity. Qed.

(** ** The invariant of the loop *)

Lemma known_size_resized (fr : StillFrame) (target : Z * Z) :
  target = (WIDTH, HEIGHT_16_9) \/ target = (WIDTH, HEIGHT) ->
  known_size (resized fr target).
Proof.
  intros Htarget. unfold known_size. rewrite resized_size.
  right. exact Htarget.
Qed.

Lemma toggled_size_cases (fr : StillFrame) :
  toggled_size fr = (WIDTH, HEIGHT_16_9) \/ toggled_size fr = (WIDTH, HEIGHT).
Proof.
  unfold toggled_size.
  destruct (size_eqb (Image_size (image fr)) (Image_size (original fr)));
    [left | right]; reflexivity.
Qed.

Lemma refreshed_invariant (img : Image) (rs : bool) :
  Image_format (original (refreshed img rs)) = Some PNG
  /\ known_size (refreshed img rs).
Proof.
  unfold refreshed. destruct rs.
  - rewrite resized_original. split; [reflexivity|].
    apply known_size_resized. left. reflexivity.
  - split; [reflexivity | left; reflexivity].
Qed.

Lemma main_init_result (get : network) (now : Z) (w0 : world) :
  main_init get now w0
  = match download_image get FEED_URL with
    | Ok img =>
        (Ok (mkLocals (fresh (dom (frames w0))) DELTA
                      (now + timedelta_seconds DELTA)),
         displayed (Image_save (image (refreshed img false)) PNG)
                   (set_frames (insert (fresh (dom (frames w0)))
                                       (refreshed img false)) w0))
    | Raise e => (Raise e, w0)
    end.
Proof.
  unfold main_init, bind. rewrite refresh_result.
  destruct (download_image get FEED_URL); reflexivity.
Qed.

Lemma DELTA_in_range : MIN_DELTA <= DELTA <= MAX_DELTA.
Proof. unfold DELTA, MIN_DELTA, MAX_DELTA. lia. Qed.

Lemma validate_delta_fst_in_range (value : Py.value) :
  MIN_DELTA <= fst (validate_delta value) <= MAX_DELTA.
Proof.
  destruct (Py.int value) as [n|e] eqn:Hint.
  - rewrite (validate_delta_Ok _ _ Hint).
    destruct ((MIN_DELTA <=? n) && (n <=? MAX_DELTA)) eqn:Hb; simpl.
    + apply in_range_iff. exact Hb.
    + exact DELTA_in_range.
  - rewrite (validate_delta_Raise _ _ Hint). exact DELTA_in_range.
Qed.

Lemma main_init_invariant (get : network) (now : Z) (w0 : world)
    (l : locals) (w : world) :
  main_init get now w0 = (Ok l, w) -> loop_invariant l w.
Proof.
  rewrite main_init_result.
  destruct (download_image get FEED_URL) as [img|e]; [|discriminate].
  intros [= <- <-]. split; [|exact DELTA_in_range].
  exists (refreshed img false). simpl.
  split; [apply lookup_insert_eq|]. split; [reflexivity|].
  exact (refreshed_invariant img false).
Qed.

(** Which branch an iteration takes. *)
Lemma step_dispatch (t : tick) (l : locals) :
  (t_event t = WIN_CLOSED \/ t_event t = Exit)
  \/ (t_event t <> WIN_CLOSED /\ t_event t <> Exit
      /\ bool_decide (t_event t = RELOAD)
         || (v_AUTORELOAD (t_values t)
             && timeout_due (t_now_due t) (next_reload_time l)) = true)
  \/ (v_AUTORELOAD (t_values t)
      && timeout_due (t_now_due t) (next_reload_time l) = false
      /\ (t_event t = RESIZE \/ t_event t = SAVE
          \/ t_event t = UPDATE_DELTA \/ t_event t = TIMEOUT)).
Proof.
  destruct (v_AUTORELOAD (t_values t)
            && timeout_due (t_now_due t) (next_reload_time l)) eqn:Hdue;
    destruct (t_event t) eqn:Hev;
    try (left; tauto);
    try (right; left; repeat split; try discriminate;
         try rewrite orb_true_r; reflexivity);
    right; right; split; tauto.
Qed.

Lemma main_step_invariant (t : tick) (l : locals) (w : world)
    (l' : locals) (w' : world) :
  loop_invariant l w ->
  main_step t l w = (Ok (Continue l'), w') ->
  loop_invariant l' w'.
Proof.
  intros [(fr & Hfr & Hshown & Hpng & Hsize) Hdelta] Hstep.
  destruct (step_dispatch t l)
    as [Hexit | [(Hclosed & Hexit & Hreload)
                | (Hdue & [Hev | [Hev | [Hev | Hev]]])]].
  - rewrite (step_exit _ _ _ Hexit) in Hstep. discriminate.
  - rewrite (step_reload _ _ _ Hclosed Hexit Hreload) in Hstep.
    destruct (download_image (t_get t) FEED_URL) as [img|e]; [|discriminate].
    injection Hstep as <- <-. split; [|exact Hdelta].
    exists (refreshed img (v_RESIZE (t_values t))). simpl.
    split; [apply lookup_insert_eq|]. split; [reflexivity|].
    exact (refreshed_invariant img (v_RESIZE (t_values t))).
  - rewrite (step_resize _ _ _ _ Hev Hdue Hfr) in Hstep.
    injection Hstep as <- <-. split; [|exact Hdelta].
    exists (resized fr (toggled_size fr)). simpl.
    split; [apply lookup_insert_eq|]. split; [reflexivity|].
    rewrite resized_original. split; [exact Hpng|].
    apply known_size_resized, toggled_size_cases.
  - rewrite (step_save _ _ _ _ Hev Hdue Hfr) in Hstep.
    injection Hstep as <- <-. split; [|exact Hdelta].
    exists fr.
    destruct (t_filename t) as [filename|]; [|tauto].
    destruct (String.eqb filename ""); [tauto|].
    destruct (unwritable w filename); simpl; tauto.
  - rewrite (step_update_delta _ _ _ Hev Hdue) in Hstep.
    pose proof (validate_delta_fst_in_range (Py.Str (v_DELTA (t_values t))))
      as Hrange.
    destruct (validate_delta (Py.Str (v_DELTA (t_values t)))) as [d valid].
    simpl in Hstep, Hrange.
    destruct valid; injection Hstep as <- <-; (split; [|exact Hrange]);
      exists fr; simpl; tauto.
  - rewrite (step_idle _ _ _ Hev Hdue) in Hstep.
    injection Hstep as <- <-. split; [|exact Hdelta].
    exists fr. tauto.
Qed.

Lemma reachable_invariant (l : locals) (w : world) :
  reachable l w -> loop_invariant l w.
Proof.
  induction 1 as [get now w0 l w Hinit | t l w l' w' _ IH Hstep].
  - exact (main_init_invariant _ _ _ _ _ Hinit).
  - exact (main_step_invariant _ _ _ _ _ IH Hstep).
Qed.

Lemma start_reachable : reachable start_locals start_world.
Proof.
  apply (reachable_init unreachable_timeout 0 empty_world).
  vm_compute. reflexivity.
Defined.

(** ** What holds in every state of the loop *)

(** X7: In every state of [main] the current still is a frame of the store and
    the window shows exactly [bytes()] of it: no branch changes the frame
    without updating the picture, or the picture without the frame. *)
Theorem reachable_shows_current_still (l : locals) (w : world) :
  reachable l w -> shows_current_still l w.
Proof.
  intros Hreach.
  destruct (reachable_invariant l w Hreach)
    as [(fr & Hfr & Hshown & _) _].
  exists fr. split; assumption.
Qed.

Lemma reachable_shows_current_still_witness :
  shows_current_still start_locals start_world.
Proof. exact (reachable_shows_current_still _ _ start_reachable). Defined.

(** X8: In every state of [main] the reload interval lies within
    [MIN_DELTA, MAX_DELTA] = [45, 300], whatever texts were submitted. *)
Theorem reachable_delta_in_range (l : locals) (w : world) :
  reachable l w -> 45 <= delta l <= 300.
Proof.
  intros Hreach. destruct (reachable_invariant l w Hreach) as [_ Hdelta].
  exact Hdelta.
Qed.

Lemma reachable_delta_in_range_witness : 45 <= delta start_locals <= 300.
Proof. exact (reachable_delta_in_range _ _ start_reachable). Defined.

(** X9: In every state of [main] the cached original of the current still is a
    PNG image, and the image of the still has the size of that original,
    the 16:9 size 704x396 or the native size 704x480. *)
Theorem reachable_known_size (l : locals) (w : world) :
  reachable l w ->
  exists fr,
    frames w !! current_still l = Some fr
    /\ Image_format (original fr) = Some PNG
    /\ (Image_size (image fr) = Image_size (original fr)
        \/ Image_size (image fr) = (704, 396)
        \/ Image_size (image fr) = (704, 480)).
Proof.
  intros Hreach.
  destruct (reachable_invariant l w Hreach)
    as [(fr & Hfr & _ & Hpng & Hsize) _].
  exists fr. split; [exact Hfr|]. split; [exact Hpng | exact Hsize].
Qed.

Lemma reachable_known_size_witness :
  exists fr, frames start_world !! current_still start_locals = Some fr
             /\ Image_format (original fr) = Some PNG.
Proof.
  destruct (reachable_known_size _ _ start_reachable) as (fr & Hfr & Hpng & _).
  exists fr. split; assumption.
Defined.

(** ** Start-up *)

(** X10: [main] starts with one fetch.  If [download_image] raises, the
    exception leaves [main] with the world as it was.  If the start-up
    code returns, the interval is 45, the first deadline lies 45 seconds
    after the clock reading and is not due at that reading, the still is
    a new frame, and the window shows the fetched picture as PNG. *)
Theorem main_init_spec (get : network) (now : Z) (w0 : world) :
  (forall e, download_image get FEED_URL = Raise e ->
     main_init get now w0 = (Raise e, w0))
  /\ (forall l w, main_init get now w0 = (Ok l, w) ->
        exists img,
          download_image get FEED_URL = Ok img
          /\ delta l = 45
          /\ next_reload_time l = now + 45000000
          /\ timeout_due now (next_reload_time l) = false
          /\ frames w0 !! current_still l = None
          /\ window_IMAGE w = Some (Encoded PNG (Image_picture img))).
Proof.
  split.
  - intros e He. rewrite main_init_result, He. reflexivity.
  - intros l w. rewrite main_init_result.
    destruct (download_image get FEED_URL) as [img|e]; [|discriminate].
    intros [= <- <-]. exists img. simpl.
    split; [reflexivity|]. split; [reflexivity|]. split; [reflexivity|].
    split; [apply not_true_is_false; rewrite timeout_due_iff;
            unfold timedelta_seconds, DELTA, MIN_DELTA; lia|].
    split; [apply not_elem_of_dom, is_fresh | reflexivity].
Qed.

Lemma main_init_spec_witness :
  main_init unreachable_network 0 empty_world = (Raise ConnectionError, empty_world)
  /\ next_reload_time start_locals = 0 + 45000000.
Proof.
  split.
  - apply (proj1 (main_init_spec unreachable_network 0 empty_world)).
    reflexivity.
  - destruct (proj2 (main_init_spec unreachable_timeout 0 empty_world)
                start_locals start_world)
      as (img & _ & _ & Hnext & _).
    + vm_compute. reflexivity.
    + exact Hnext.
Defined.

(** ** Failures *)

(** X11: [download_image] never raises a Timeout: an exception that leaves it
    is one that [except Timeout] does not handle. *)
Theorem download_image_never_raises_Timeout (get : network) (url : string)
    (e : exn) :
  download_image get url = Raise e -> is_Timeout e = false.
Proof.
  unfold download_image.
  destruct (get url) as [r|e0]; simpl.
  - destruct (status_code r =? 200); [|discriminate].
    destruct (content r); simpl; [discriminate|].
    intros [= <-]. reflexivity.
  - destruct (is_Timeout e0) eqn:Htimeout; [discriminate|].
    intros [= <-]. exact Htimeout.
Qed.

Lemma download_image_never_raises_Timeout_witness :
  is_Timeout ConnectionError = false.
Proof.
  apply (download_image_never_raises_Timeout unreachable_network FEED_URL).
  reflexivity.
Defined.

(** X12: An iteration of [main] raises only when it is a reload: toggling,
    saving, setting the interval and idling never end the loop with an
    exception. *)
Theorem step_raises_only_in_reload (t : tick) (l : locals) (w : world)
    (e : exn) (w' : world) :
  reachable l w ->
  main_step t l w = (Raise e, w') ->
  t_event t <> WIN_CLOSED
  /\ t_event t <> Exit
  /\ (t_event t = RELOAD
      \/ v_AUTORELOAD (t_values t)
         && timeout_due (t_now_due t) (next_reload_time l) = true).
Proof.
  intros Hreach Hstep.
  destruct (reachable_invariant l w Hreach) as [(fr & Hfr & _) _].
  destruct (step_dispatch t l)
    as [Hexit | [(Hclosed & Hexit & Hreload)
                | (Hdue & [Hev | [Hev | [Hev | Hev]]])]].
  - rewrite (step_exit _ _ _ Hexit) in Hstep. discriminate.
  - split; [exact Hclosed|]. split; [exact Hexit|].
    apply orb_true_iff in Hreload as [Hev | Hdue]; [left | right; exact Hdue].
    apply bool_decide_eq_true in Hev. exact Hev.
  - rewrite (step_resize _ _ _ _ Hev Hdue Hfr) in Hstep. discriminate.
  - rewrite (step_save _ _ _ _ Hev Hdue Hfr) in Hstep. discriminate.
  - rewrite (step_update_delta _ _ _ Hev Hdue) in Hstep. discriminate.
  - rewrite (step_idle _ _ _ Hev Hdue) in Hstep. discriminate.
Qed.

Lemma step_raises_only_in_reload_witness :
  t_event (mkTick RELOAD (mkValues true false "45") 0 0 unreachable_network None)
  <> Exit.
Proof.
  apply (step_raises_only_in_reload
           (mkTick RELOAD (mkValues true false "45") 0 0 unreachable_network None)
           start_locals start_world ConnectionError start_world).
  - exact start_reachable.
  - vm_compute. reflexivity.
Defined.

(** ** Scheduling *)

(** X13: A reload in a state of [main] keeps the interval.  With auto-reload
    checked the new deadline is the clock reading plus the interval: not
    due at that reading and due 300 seconds later at the latest.  With
    auto-reload unchecked (a manual reload) the deadline stays. *)
Theorem reload_reschedules (t : tick) (l : locals) (w : world)
    (l' : locals) (w' : world) :
  reachable l w ->
  t_event t <> WIN_CLOSED -> t_event t <> Exit ->
  bool_decide (t_event t = RELOAD)
  || (v_AUTORELOAD (t_values t)
      && timeout_due (t_now_due t) (next_reload_time l)) = true ->
  main_step t l w = (Ok (Continue l'), w') ->
  delta l' = delta l
  /\ (v_AUTORELOAD (t_values t) = true ->
        next_reload_time l' = t_now_next t + delta l * 1000000
        /\ timeout_due (t_now_next t) (next_reload_time l') = false
        /\ timeout_due (t_now_next t + 300 * 1000000) (next_reload_time l')
           = true)
  /\ (v_AUTORELOAD (t_values t) = false ->
        next_reload_time l' = next_reload_time l).
Proof.
  intros Hreach Hclosed Hexit Hreload Hstep.
  destruct (reachable_invariant l w Hreach) as [_ Hdelta].
  unfold MIN_DELTA, MAX_DELTA in Hdelta.
  rewrite (step_reload _ _ _ Hclosed Hexit Hreload) in Hstep.
  destruct (download_image (t_get t) FEED_URL) as [img|e]; [|discriminate].
  injection Hstep as <- <-. simpl. split; [reflexivity|].
  split; intros Hauto; rewrite Hauto; [|reflexivity].
  unfold next_timeout, timedelta_seconds. split; [reflexivity|].
  split; [apply not_true_is_false|]; rewrite timeout_due_iff; lia.
Qed.

Lemma reload_reschedules_witness :
  timeout_due 45000000 (next_reload_time (mkLocals 2 45 90000000)) = false.
Proof.
  destruct (reload_reschedules
              (sample_tick TIMEOUT true false 45000000)
              start_locals start_world (mkLocals 2 45 90000000)
              (snd (main_step (sample_tick TIMEOUT true false 45000000)
                              start_locals start_world)))
    as (_ & Hauto & _).
  - exact start_reachable.
  - discriminate.
  - discriminate.
  - reflexivity.
  - vm_compute. reflexivity.
  - exact (proj1 (proj2 (Hauto eq_refl))).
Defined.

(** X14: Iterations without an event in which auto-reload is unchecked or the
    deadline has not come change nothing, however many there are: no
    fetch, no new frame, the same picture and the same files. *)
Theorem idle_ticks_change_nothing (ts : list tick) (l : locals) (w : world) :
  forallb (idle (next_reload_time l)) ts = true ->
  main_loop ts l w = (Ok tt, w).
Proof.
  induction ts as [|t ts IH]; intros Hidle.
  - reflexivity.
  - simpl in Hidle. apply andb_true_iff in Hidle as [Ht Hts].
    unfold idle in Ht. apply andb_true_iff in Ht as [Hev Hdue].
    apply bool_decide_eq_true in Hev. apply negb_true_iff in Hdue.
    simpl main_loop. unfold bind. rewrite (step_idle _ _ _ Hev Hdue).
    apply IH. exact Hts.
Qed.

Lemma idle_ticks_change_nothing_witness :
  main_loop [sample_tick TIMEOUT true false 100;
             sample_tick TIMEOUT false false 99000000;
             sample_tick TIMEOUT true true 44999999]
            start_locals start_world
  = (Ok tt, start_world).
Proof. apply idle_ticks_change_nothing. reflexivity. Defined.

(** X15: When auto-reload is checked and the deadline has come, any event other
    than closing the window or Exit is handled as a reload: a toggle, a
    save request or a new interval submitted in that iteration is
    dropped, so the interval, the input field and the files stay. *)
Theorem due_reload_preempts_event (t : tick) (l : locals) (w : world) :
  t_event t <> WIN_CLOSED -> t_event t <> Exit ->
  v_AUTORELOAD (t_values t)
  && timeout_due (t_now_due t) (next_reload_time l) = true ->
  main_step t l w = main_step (with_event RELOAD t) l w
  /\ forall l' w', main_step t l w = (Ok (Continue l'), w') ->
       delta l' = delta l
       /\ window_DELTA w' = window_DELTA w
       /\ files w' = files w
       /\ popups w' = popups w
       /\ next_reload_time l' = next_timeout (t_now_next t) (delta l).
Proof.
  intros Hclosed Hexit Hdue.
  assert (Hreload : bool_decide (t_event t = RELOAD)
                    || (v_AUTORELOAD (t_values t)
                        && timeout_due (t_now_due t) (next_reload_time l))
                    = true)
    by (rewrite Hdue; apply orb_true_r).
  apply andb_true_iff in Hdue as Hboth. destruct Hboth as [Hauto _].
  rewrite (step_reload _ _ _ Hclosed Hexit Hreload). split.
  - rewrite (step_reload (with_event RELOAD t) l w); simpl; try discriminate;
      reflexivity.
  - intros l' w' Hstep.
    destruct (download_image (t_get t) FEED_URL) as [img|e]; [|discriminate].
    injection Hstep as <- <-. simpl. rewrite Hauto. repeat split.
Qed.

Lemma due_reload_preempts_event_witness :
  main_step (set_pressed "100" true 45000000) start_locals start_world
  = main_step (with_event RELOAD (set_pressed "100" true 45000000))
              start_locals start_world.
Proof.
  apply (due_reload_preempts_event (set_pressed "100" true 45000000)
           start_locals start_world).
  - discriminate.
  - discriminate.
  - reflexivity.
Defined.

(** ** The aspect-ratio check box *)

(** X16: A '-RESIZE-' event toggles the current still in place: the locals are
    unchanged, no frame is added, the still's image takes the size that
    [new_size] answered, its cached original is kept, the window shows the
    new image, and no file is written. *)
Theorem resize_event_toggles_in_place (t : tick) (l : locals) (w : world) :
  reachable l w ->
  t_event t = RESIZE ->
  v_AUTORELOAD (t_values t)
  && timeout_due (t_now_due t) (next_reload_time l) = false ->
  exists w' fr fr',
    main_step t l w = (Ok (Continue l), w')
    /\ frames w !! current_still l = Some fr
    /\ frames w' !! current_still l = Some fr'
    /\ Image_size (image fr') = toggled_size fr
    /\ original fr' = original fr
    /\ window_IMAGE w' = Some (Image_save (image fr') PNG)
    /\ dom (frames w') = dom (frames w)
    /\ files w' = files w.
Proof.
  intros Hreach Hev Hdue.
  destruct (reachable_invariant l w Hreach) as [(fr & Hfr & _) _].
  rewrite (step_resize _ _ _ _ Hev Hdue Hfr), locals_eta.
  eexists. exists fr, (resized fr (toggled_size fr)).
  split; [reflexivity|]. split; [exact Hfr|]. simpl.
  split; [apply lookup_insert_eq|]. split; [apply resized_size|].
  split; [apply resized_original|]. split; [reflexivity|].
  split; [|reflexivity].
  apply dom_insert_lookup_L. rewrite Hfr. eexists. reflexivity.
Qed.

Lemma resize_event_toggles_in_place_witness :
  exists w', main_step (sample_tick RESIZE false true 0) start_locals start_world
             = (Ok (Continue start_locals), w')
             /\ encoded_size <$> window_IMAGE w' = Some (Some (704, 396)).
Proof.
  destruct (resize_event_toggles_in_place (sample_tick RESIZE false true 0)
              start_locals start_world start_reachable eq_refl eq_refl)
    as (w' & fr & fr' & Hrun & Hfr & _ & Hsize & _ & Hshown & _).
  exists w'. split; [exact Hrun|]. rewrite Hshown.
  change (Some (Some (Image_size (image fr'))) = Some (Some (704, 396))).
  rewrite Hsize. vm_compute in Hfr. injection Hfr as <-. reflexivity.
Defined.

(** ** Saving from the loop *)

(** X17: A '-SAVE-' event in a state of [main] never ends or alters the loop:
    the locals, the frames and the picture stay.  A cancelled dialogue
    changes nothing at all; a path that cannot be written adds one popup
    naming it and writes nothing; otherwise the file receives exactly the
    bytes that the window shows, without a popup. *)
Theorem save_event_spec (t : tick) (l : locals) (w : world) :
  reachable l w ->
  t_event t = SAVE ->
  v_AUTORELOAD (t_values t)
  && timeout_due (t_now_due t) (next_reload_time l) = false ->
  exists w',
    main_step t l w = (Ok (Continue l), w')
    /\ frames w' = frames w
    /\ window_IMAGE w' = window_IMAGE w
    /\ (t_filename t = None \/ t_filename t = Some "" -> w' = w)
    /\ (forall filename,
          t_filename t = Some filename -> filename <> "" ->
          unwritable w filename = true ->
          popups w' = filename :: popups w /\ files w' = files w)
    /\ (forall filename,
          t_filename t = Some filename -> filename <> "" ->
          unwritable w filename = false ->
          popups w' = popups w
          /\ files w' !! filename = window_IMAGE w
          /\ forall other, other <> filename ->
               files w' !! other = files w !! other).
Proof.
  intros Hreach Hev Hdue.
  destruct (reachable_invariant l w Hreach) as [(fr & Hfr & Hshown & _) _].
  rewrite (step_save _ _ _ _ Hev Hdue Hfr).
  eexists. split; [reflexivity|].
  destruct (t_filename t) as [filename|].
  - destruct (String.eqb_spec filename "") as [-> | Hne].
    + repeat split; intros; congruence.
    + destruct (unwritable w filename) eqn:Hpath; simpl;
        (split; [reflexivity|]); (split; [reflexivity|]);
        (split; [intros [Hnone | Hempty]; congruence|]);
        split; intros f [= <-] _ Hf; try congruence.
      * split; reflexivity.
      * split; [reflexivity|]. rewrite Hshown.
        split; [apply lookup_insert_eq|].
        intros other Hother. apply lookup_insert_ne. congruence.
  - repeat split; intros; congruence.
Qed.

Lemma save_event_spec_witness :
  exists w',
    main_step (mkTick SAVE (mkValues false false "45") 0 0 unreachable_timeout
                      (Some "still.png")) start_locals start_world
    = (Ok (Continue start_locals), w')
    /\ files w' !! "still.png" = window_IMAGE start_world.
Proof.
  destruct (save_event_spec
              (mkTick SAVE (mkValues false false "45") 0 0 unreachable_timeout
                      (Some "still.png")) start_locals start_world
              start_reachable eq_refl eq_refl)
    as (w' & Hrun & _ & _ & _ & _ & Hwritten).
  exists w'. split; [exact Hrun|].
  apply (Hwritten "still.png" eq_refl); [discriminate | reflexivity].
Defined.

(** X18: No iteration other than a '-SAVE-' one writes a file or opens a
    popup, whether it ends normally, with [break] or with an exception. *)
Theorem only_save_writes_files (t : tick) (l : locals) (w : world)
    (r : result control) (w' : world) :
  reachable l w ->
  t_event t <> SAVE ->
  main_step t l w = (r, w') ->
  files w' = files w /\ popups w' = popups w.
Proof.
  intros Hreach Hnosave Hstep.
  destruct (reachable_invariant l w Hreach) as [(fr & Hfr & _) _].
  destruct (step_dispatch t l)
    as [Hexit | [(Hclosed & Hexit & Hreload)
                | (Hdue & [Hev | [Hev | [Hev | Hev]]])]].
  - rewrite (step_exit _ _ _ Hexit) in Hstep.
    injection Hstep as <- <-. split; reflexivity.
  - rewrite (step_reload _ _ _ Hclosed Hexit Hreload) in Hstep.
    destruct (download_image (t_get t) FEED_URL);
      injection Hstep as <- <-; split; reflexivity.
  - rewrite (step_resize _ _ _ _ Hev Hdue Hfr) in Hstep.
    injection Hstep as <- <-. split; reflexivity.
  - contradiction.
  - rewrite (step_update_delta _ _ _ Hev Hdue) in Hstep.
    destruct (validate_delta (Py.Str (v_DELTA (t_values t)))) as [d valid].
    destruct valid; injection Hstep as <- <-; split; reflexivity.
  - rewrite (step_idle _ _ _ Hev Hdue) in Hstep.
    injection Hstep as <- <-. split; reflexivity.
Qed.

Lemma only_save_writes_files_witness :
  files (snd (main_step (sample_tick RELOAD true true 7) start_locals
                        start_world))
  = files start_world.
Proof.
  apply (only_save_writes_files (sample_tick RELOAD true true 7)
           start_locals start_world
           (fst (main_step (sample_tick RELOAD true true 7) start_locals
                           start_world))).
  - exact start_reachable.
  - discriminate.
  - apply surjective_pairing.
Defined.

(** ** Frames over time *)

(** X19: No iteration removes a frame or changes a cached original: a frame of
    the store is still there afterwards with the same original, and a
    frame other than the current still is unchanged altogether. *)
Theorem frames_persist (t : tick) (l : locals) (w : world)
    (r : result control) (w' : world) (self : ref) (fr : StillFrame) :
  reachable l w ->
  frames w !! self = Some fr ->
  main_step t l w = (r, w') ->
  exists fr',
    frames w' !! self = Some fr'
    /\ original fr' = original fr
    /\ (self <> current_still l -> fr' = fr).
Proof.
  intros Hreach Hself Hstep.
  destruct (reachable_invariant l w Hreach) as [(cur & Hcur & _) _].
  assert (Hkeep : exists fr', frames w !! self = Some fr'
                              /\ original fr' = original fr
                              /\ (self <> current_still l -> fr' = fr))
    by (exists fr; repeat split; assumption).
  destruct (step_dispatch t l)
    as [Hexit | [(Hclosed & Hexit & Hreload)
                | (Hdue & [Hev | [Hev | [Hev | Hev]]])]].
  - rewrite (step_exit _ _ _ Hexit) in Hstep.
    injection Hstep as <- <-. exact Hkeep.
  - rewrite (step_reload _ _ _ Hclosed Hexit Hreload) in Hstep.
    destruct (download_image (t_get t) FEED_URL);
      injection Hstep as <- <-; [|exact Hkeep].
    exists fr. simpl. split; [|split; reflexivity].
    rewrite lookup_insert_ne; [exact Hself|].
    intros Heq. pose proof (is_fresh (dom (frames w))) as Hfresh.
    rewrite Heq in Hfresh. apply Hfresh. apply elem_of_dom. eauto.
  - rewrite (step_resize _ _ _ _ Hev Hdue Hcur) in Hstep.
    injection Hstep as <- <-. simpl.
    destruct (decide (self = current_still l)) as [-> | Hne].
    + rewrite Hcur in Hself. injection Hself as ->.
      exists (resized fr (toggled_size fr)).
      split; [apply lookup_insert_eq|].
      split; [apply resized_original | congruence].
    + exists fr. rewrite lookup_insert_ne by congruence.
      split; [exact Hself | split; reflexivity].
  - rewrite (step_save _ _ _ _ Hev Hdue Hcur) in Hstep.
    injection Hstep as <- <-.
    destruct (t_filename t) as [filename|]; [|exact Hkeep].
    destruct (String.eqb filename ""); [exact Hkeep|].
    destruct (unwritable w filename); exact Hkeep.
  - rewrite (step_update_delta _ _ _ Hev Hdue) in Hstep.
    destruct (validate_delta (Py.Str (v_DELTA (t_values t)))) as [d valid].
    destruct valid; injection Hstep as <- <-; exact Hkeep.
  - rewrite (step_idle _ _ _ Hev Hdue) in Hstep.
    injection Hstep as <- <-. exact Hkeep.
Qed.

Lemma frames_persist_witness :
  exists fr',
    frames (snd (main_step (sample_tick RELOAD true true 7) start_locals
                           start_world)) !! 1%positive = Some fr'
    /\ original fr' = as_png make_blank_image_default.
Proof.
  destruct (frames_persist (sample_tick RELOAD true true 7)
              start_locals start_world
              (fst (main_step (sample_tick RELOAD true true 7) start_locals
                              start_world))
              (snd (main_step (sample_tick RELOAD true true 7) start_locals
                              start_world))
              1%positive
              (mkStillFrame (as_png make_blank_image_default)
                            (as_png make_blank_image_default)))
    as (fr' & Hfr' & Horig & _).
  - exact start_reachable.
  - vm_compute. reflexivity.
  - apply surjective_pairing.
  - exists fr'. split; [exact Hfr' | exact Horig].
Defined.

(** ** Leaving the loop *)

Lemma main_loop_cons (t : tick) (ts : list tick) (l : locals) (w : world) :
  main_loop (t :: ts) l w
  = match main_step t l w with
    | (Ok (Continue l'), w') => main_loop ts l' w'
    | (Ok Break, w') => (Ok tt, w')
    | (Raise e, w') => (Raise e, w')
    end.
Proof.
  simpl. unfold bind.
  destruct (main_step t l w) as [[[l'|]|e] w']; reflexivity.
Qed.

(** X20: Closing the window or pressing Exit ends the loop where it stands:
    the run is the run of the iterations before it, and no later
    iteration is executed, whatever it would bring. *)
Theorem main_loop_stops_at_exit (before after : list tick) (t : tick)
    (l : locals) (w : world) :
  t_event t = WIN_CLOSED \/ t_event t = Exit ->
  main_loop (before ++ t :: after) l w = main_loop before l w.
Proof.
  intros Hexit. revert l w.
  induction before as [|b before IH]; intros l w.
  - simpl app. rewrite main_loop_cons, (step_exit _ _ _ Hexit). reflexivity.
  - change (((b :: before) ++ t :: after)%list)
      with (b :: (before ++ t :: after)%list).
    rewrite !main_loop_cons.
    destruct (main_step b l w) as [[[l'|]|e] w']; [apply IH | | ]; reflexivity.
Qed.

Lemma main_loop_stops_at_exit_witness :
  main_loop [sample_tick TIMEOUT false false 5;
             sample_tick Exit true true 45000000;
             sample_tick RELOAD true true 45000001]
            start_locals start_world
  = main_loop [sample_tick TIMEOUT false false 5] start_locals start_world.
Proof.
  apply (main_loop_stops_at_exit [sample_tick TIMEOUT false false 5]
           [sample_tick RELOAD true true 45000001]
           (sample_tick Exit true true 45000000)).
  right. reflexivity.
Defined.

(** ** The interval field *)

(** X21: After Set has been handled, the interval held by the loop is the one
    the input field stands for: an accepted text is left in the field and
    validates to the new interval; a rejected text is replaced by "45",
    which validates to the new interval 45. *)
Theorem set_event_field_matches_interval (t : tick) (l : locals) (w : world) :
  t_event t = UPDATE_DELTA ->
  v_AUTORELOAD (t_values t)
  && timeout_due (t_now_due t) (next_reload_time l) = false ->
  exists l' w',
    main_step t l w = (Ok (Continue l'), w')
    /\ (snd (validate_delta (Py.Str (v_DELTA (t_values t)))) = true ->
          window_DELTA w' = window_DELTA w
          /\ validate_delta (Py.Str (v_DELTA (t_values t))) = (delta l', true))
    /\ (snd (validate_delta (Py.Str (v_DELTA (t_values t)))) = false ->
          window_DELTA w' = Some "45"
          /\ delta l' = 45
          /\ validate_delta (Py.Str "45") = (delta l', true)).
Proof.
  intros Hev Hdue. rewrite (step_update_delta _ _ _ Hev Hdue).
  pose proof (validate_delta_Raise (Py.Str (v_DELTA (t_values t)))) as Hraise.
  pose proof (validate_delta_Ok (Py.Str (v_DELTA (t_values t)))) as Hok.
  destruct (Py.int (Py.Str (v_DELTA (t_values t)))) as [n|e].
  - specialize (Hok n eq_refl).
    destruct ((MIN_DELTA <=? n) && (n <=? MAX_DELTA)); rewrite Hok;
      do 2 eexists; (split; [reflexivity|]); simpl;
      split; intros Hflag; try discriminate; repeat split.
  - rewrite (Hraise e eq_refl).
    do 2 eexists. split; [reflexivity|]. simpl.
    split; intros Hflag; try discriminate; repeat split.
Qed.

Lemma set_event_field_matches_interval_witness :
  exists l' w',
    main_step (set_pressed "4 5" false 0) start_locals start_world
    = (Ok (Continue l'), w')
    /\ window_DELTA w' = Some "45".
Proof.
  destruct (set_event_field_matches_interval (set_pressed "4 5" false 0)
              start_locals start_world eq_refl eq_refl)
    as (l' & w' & Hrun & _ & Hrejected).
  exists l', w'. split; [exact Hrun|]. apply Hrejected. reflexivity.
Defined.

(** ** Toggling a frame of native size *)

Lemma toggle_twice_native_witness :
  exists w' fr',
    toggles 2 1 blank_frame_world = (Ok 1%positive, w')
    /\ frames w' !! 1%positive = Some fr'
    /\ Image_size (image fr') = (704, 480).
Proof.
  destruct (toggle_twice_native 1
              (mkStillFrame (as_png make_blank_image_default)
                            (as_png make_blank_image_default))
              blank_frame_world)
    as (w' & fr' & Hrun & Hfr' & Hsize & _).
  - vm_compute. reflexivity.
  - reflexivity.
  - left. reflexivity.
  - exists w', fr'. split; [exact Hrun|]. split; [exact Hfr' | exact Hsize].
Defined.

(** ** The format attribute after a resize *)



(** ** The interval-update event *)



